(** * A shallow embedding of [src/main.py] (the V2EX monitor)

    The monitor keeps a dictionary [processed_posts] from post identifier
    (the string [str(post["id"])]) to a record [{last_modified, title, url}],
    and [process_posts] walks the fetched feed, filters by keyword, checks the
    dictionary, fetches content, asks the extraction service, notifies and
    commits.  Strings are Rocq byte strings: the UTF-8 encodings of the
    keywords and of the separator [","] are compared byte-wise, which agrees
    with Python's code-point comparison on well-formed UTF-8. *)

From Stdlib Require Import ZArith String Ascii List.
From Stdlib Require Import DecimalString DecimalZ DecimalPos.
From stdpp Require Import base gmap strings list fin_maps.

Open Scope string_scope.

(* ------------------------------------------------------------------ *)
(** ** Python strings *)

(** [needle in hay] for Python [str]. *)
Fixpoint py_in (needle hay : string) : bool :=
  String.prefix needle hay ||
  match hay with
  | EmptyString => false
  | String _ hay' => py_in needle hay'
  end.

(** [s.split(",")]: Python splits on every occurrence of the separator and
    keeps empty pieces, so [""] splits into [[""]]. *)
Fixpoint split_comma_acc (s : string) (acc : string) : list string :=
  match s with
  | EmptyString => [acc]
  | String c s' =>
      if Ascii.eqb c ","%char then acc :: split_comma_acc s' ""
      else split_comma_acc s' (acc +:+ String c EmptyString)
  end.

Definition split_comma (s : string) : list string := split_comma_acc s "".

(** [s.replace("*", "")] *)
Fixpoint remove_star (s : string) : string :=
  match s with
  | EmptyString => EmptyString
  | String c s' =>
      if Ascii.eqb c "*"%char then remove_star s' else String c (remove_star s')
  end.

(** [str(n)] for a Python [int]. *)
Definition py_str_int (n : Z) : string := NilZero.string_of_int (Z.to_int n).

(** Python's [os.getenv(name, default)]: an unset variable gives the default,
    a variable set to the empty string gives [""]. *)
Definition getenv_default (v : option string) (default : string) : string :=
  match v with Some s => s | None => default end.

(** Truthiness of an [Optional[str]]: [None] and [""] are falsy. *)
Definition truthy (o : option string) : bool :=
  match o with Some s => negb (String.eqb s "") | None => false end.

Definition newline : string := String "010"%char EmptyString.

(* ------------------------------------------------------------------ *)
(** ** Data model *)

(** A feed entry: [post["id"]], [post["title"]], [post["content"]],
    [post["last_modified"]], [post["url"]]. *)
Record post := mkPost {
  id : Z;
  title : string;
  content : string;
  last_modified : Z;
  url : string;
}.

(** A value of [processed_posts]. *)
Record record := mkRecord {
  rec_last_modified : Z;
  rec_title : string;
  rec_url : string;
}.

Definition post_id (p : post) : string := py_str_int (id p).

Inductive transport := Bark | Email.

(** The exceptions that can escape the body of the [for] loop of
    [process_posts]: [newspaper.ArticleException] from [article.parse()] when
    the download failed, and the [ValueError]/[OverflowError] of
    [datetime.fromtimestamp] for a time stamp outside its range. *)
Inductive py_exc := ArticleException | TimestampError.

(** What [Article(url).download(); .parse()] does: raise, or give [.text]. *)
Inductive article_result := ArticleRaises | ArticleText (text : string).

(** Observable actions of the monitor.  [EvSelect] is a ghost marker: control
    has passed both guards of the loop body (line 215). *)
Inductive event :=
| EvSelect (post_id : string)
| EvScrape (url : string)
| EvArticle (url : string)
| EvExtract (content : string)
| EvNotify (title body : string)
| EvTransport (t : transport) (title body : string) (delivered : bool)
| EvSave.

(** The behaviour of everything outside the repository during one cycle. *)
Record world := mkWorld {
  feed : list post;                        (* result of [_get_latest_posts] *)
  scrape : string -> option string;        (* [_scrape_content]; [None] on error *)
  article : string -> article_result;      (* newspaper's [Article] *)
  extract : string -> option string;       (* [_extract_codes_with_ai] *)
  notification_type : option string;      (* [NOTIFICATION_TYPE] *)
  transport_delivers : transport -> bool;  (* whether the HTTP/SMTP call succeeds *)
  fromtimestamp_ok : Z -> bool;            (* whether [datetime.fromtimestamp] returns *)
}.

(* ------------------------------------------------------------------ *)
(** ** A state, exception and trace monad *)

Inductive result (A : Type) := Ok (a : A) | Raise (e : py_exc).
Arguments Ok {A} a.
Arguments Raise {A} e.

Definition M (A : Type) : Type :=
  gmap string record -> result A * gmap string record * list event.

Definition ret {A} (a : A) : M A := fun s => (Ok a, s, []).

Definition bind {A B} (m : M A) (f : A -> M B) : M B := fun s =>
  match m s with
  | (Ok a, s1, t1) => let '(r, s2, t2) := f a s1 in (r, s2, app t1 t2)
  | (Raise e, s1, t1) => (Raise e, s1, t1)
  end.

(** stdpp's [x ← m; k] and [m ;; k] notations for [M]. *)
Global Instance M_ret : MRet M := @ret.
Global Instance M_bind : MBind M := fun A B f m => bind m f.

Definition raise {A} (e : py_exc) : M A := fun s => (Raise e, s, []).
Definition emit (ev : event) : M unit := fun s => (Ok tt, s, [ev]).
Definition get_store : M (gmap string record) := fun s => (Ok s, s, []).
Definition put_store (s' : gmap string record) : M unit := fun _ => (Ok tt, s', []).

(* ------------------------------------------------------------------ *)
(** ** [V2EXMonitor] *)

(** [__init__]: [os.getenv("KEYWORDS", "送码,兑换码,激活码").split(",")] *)
Definition default_keywords : string := "送码,兑换码,激活码".

Definition init_keywords (KEYWORDS : option string) : list string :=
  split_comma (getenv_default KEYWORDS default_keywords).

(** [_check_keywords]: [any(keyword in text for keyword in self.keywords)] *)
Definition check_keywords (keywords : list string) (text : string) : bool :=
  existsb (fun keyword => py_in keyword text) keywords.

(** [_get_latest_posts], the request it issues.  The cache-busting [url] is
    built and then not used: [requests.get] receives
    [os.getenv("V2EX_API_URL")].  With the variable unset, [requests.get(None)]
    raises and the [except] branch returns [[]]. *)
Record http_get := mkGet {
  get_url : string;
  get_headers : list (string * string);
  get_timeout : Z;
}.

Definition py_format_opt (o : option string) : string :=
  match o with Some s => s | None => "None" end.

Definition get_latest_posts_request (V2EX_API_URL : option string) (now_ms : Z)
  : option http_get :=
  let url := py_format_opt V2EX_API_URL +:+ "?t=" +:+ py_str_int now_ms in
  match V2EX_API_URL with
  | Some api_url =>
      Some (mkGet api_url
              [("Cache-Control", "no-store"); ("Pragma", "no-cache"); ("Expires", "0")]
              60)
  | None => None
  end.

(** [_scrape_content] *)
Definition scrape_content (w : world) (u : string) : M (option string) :=
  emit (EvScrape u);; mret (scrape w u).

(** [_extract_codes_with_ai] *)
Definition extract_codes_with_ai (w : world) (c : string) : M (option string) :=
  emit (EvExtract c);; mret (extract w c).

(** [_send_bark_notification] / [_send_email_notification]: the call is
    inside [try]; a failure is logged and the function returns normally. *)
Definition send_transport (w : world) (t : transport) (title body : string) : M unit :=
  emit (EvTransport t title body (transport_delivers w t)).

(** [_send_notification] *)
Definition send_notification (w : world) (title body : string) : M unit :=
  emit (EvNotify title body);;
  let ty := getenv_default (notification_type w) "bark" in
  if String.eqb ty "bark" then send_transport w Bark title body
  else if String.eqb ty "email" then send_transport w Email title body
  else mret tt.

(** [_save_processed_posts]: rewrites the file; a failure is logged. *)
Definition save_processed_posts : M unit := emit EvSave.

(** Lines 225-234.  [None] stands for the [continue] of line 234. *)
Definition obtain_content (w : world) (u : string) : M (option string) :=
  c ← scrape_content w u;
  if truthy c then mret c
  else
    emit (EvArticle u);;
    match article w u with
    | ArticleRaises => raise ArticleException
    | ArticleText text =>
        if String.eqb text "" then mret None else mret (Some text)
    end.

(** [x or ""] for an [Optional[str]] *)
Definition or_empty (o : option string) : string :=
  match o with Some s => s | None => "" end.

Definition notification_title (p : post) : string := "V2EX新激活码: " +:+ title p.

Definition notification_body (u extracted_info : string) : string :=
  "链接: " +:+ u +:+ newline +:+ newline +:+ "提取信息:" +:+ newline +:+
  remove_star extracted_info.

(** The body of the [for post in posts] loop of [process_posts]. *)
Definition process_post (w : world) (keywords : list string) (p : post) : M unit :=
  let pid := post_id p in
  let lm := last_modified p in
  if negb (check_keywords keywords (title p) || check_keywords keywords (content p))
  then mret tt
  else
    processed ← get_store;
    let stale := match processed !! pid with
                 | Some r => Z.leb lm (rec_last_modified r)
                 | None => false
                 end in
    if stale then mret tt
    else
      emit (EvSelect pid);;
      (if fromtimestamp_ok w lm then mret tt else raise TimestampError);;
      oc ← obtain_content w (url p);
      match oc with
      | None => mret tt
      | Some c =>
          info ← extract_codes_with_ai w c;
          let extracted_info := or_empty info in
          send_notification w (notification_title p)
            (notification_body (url p) extracted_info);;
          processed' ← get_store;
          put_store (<[pid := mkRecord lm (title p) (url p)]> processed');;
          save_processed_posts
      end.

Fixpoint for_each {A} (f : A -> M unit) (l : list A) : M unit :=
  match l with
  | [] => mret tt
  | x :: l' => f x;; for_each f l'
  end.

(** [process_posts] *)
Definition process_posts (w : world) (keywords : list string) : M unit :=
  for_each (process_post w keywords) (feed w).

(** One iteration of [while True] in [run]: an exception out of
    [process_posts] is caught; the dictionary keeps what was written before. *)
Definition run_cycle (keywords : list string) (w : world) (s : gmap string record)
  : gmap string record * list event :=
  let '(_, s', t) := process_posts w keywords s in (s', t).

Fixpoint run_cycles (keywords : list string) (ws : list world) (s : gmap string record)
  : gmap string record * list event :=
  match ws with
  | [] => (s, [])
  | w :: ws' =>
      let '(s1, t1) := run_cycle keywords w s in
      let '(s2, t2) := run_cycles keywords ws' s1 in
      (s2, app t1 t2)
  end.

(* ------------------------------------------------------------------ *)
(** ** Vocabulary of the properties *)

(** The spec's [isNew(id, lastModified)]. *)
Definition is_new (processed : gmap string record) (pid : string) (lm : Z) : bool :=
  match processed !! pid with
  | None => true
  | Some r => Z.ltb (rec_last_modified r) lm
  end.

(** The guard of lines 204-208. *)
Definition passes_filter (keywords : list string) (p : post) : bool :=
  check_keywords keywords (title p) || check_keywords keywords (content p).

(** The value written at line 251. *)
Definition commit_record (p : post) : record :=
  mkRecord (last_modified p) (title p) (url p).

(** The content lines 225-234 hand to the extraction step, if any. *)
Definition obtained_content (w : world) (u : string) : option string :=
  match obtain_content w u ∅ with
  | (Ok oc, _, _) => oc
  | (Raise _, _, _) => None
  end.

(** The pipeline was entered for [pid]. *)
Definition selected (pid : string) (t : list event) : bool :=
  existsb (fun e => match e with EvSelect q => String.eqb q pid | _ => false end) t.

(** The calls of [_send_notification] in a trace. *)
Definition notifications (t : list event) : list (string * string) :=
  omap (fun e => match e with EvNotify ti b => Some (ti, b) | _ => None end) t.

Definition is_notify (e : event) : bool :=
  match e with EvNotify _ _ => true | _ => false end.

(** The notification [process_posts] sends for [p] when its content is
    obtained. *)
Definition expected_notification (w : world) (p : post) : option (string * string) :=
  c ← obtained_content w (url p);
  Some (notification_title p, notification_body (url p) (or_empty (extract w c))).

(** No stored last-modified value goes down from [s] to [s']. *)
Definition state_le (s s' : gmap string record) : Prop :=
  forall k r, s !! k = Some r ->
  exists r', s' !! k = Some r' /\ (rec_last_modified r <= rec_last_modified r')%Z.

Definition trace_of {A} (x : result A * gmap string record * list event) : list event :=
  let '(_, _, t) := x in t.

Definition store_of {A} (x : result A * gmap string record * list event)
  : gmap string record :=
  let '(_, s, _) := x in s.

(** The same cycle with [NOTIFICATION_TYPE] set to [ty]. *)
Definition with_notification_type (w : world) (ty : option string) : world :=
  mkWorld (feed w) (scrape w) (article w) (extract w) ty
    (transport_delivers w) (fromtimestamp_ok w).

Definition is_transport (e : event) : bool :=
  match e with EvTransport _ _ _ _ => true | _ => false end.

(** *** The crawl service behind [_scrape_content] *)

(** A decoded JSON document as [response.json()] returns it. *)
#[warnings="-register-all"]
Inductive json : Type :=
| JNull | JBool (b : bool) | JNum (n : Z) | JStr (s : string)
| JArr (l : list json) | JObj (kv : list (string * json)).

(** Key lookup in a decoded JSON object: a repeated key keeps its last value. *)
Fixpoint assoc_last (k : string) (kv : list (string * json)) : option json :=
  match kv with
  | [] => None
  | (k', v) :: r =>
      match assoc_last k r with
      | Some x => Some x
      | None => if String.eqb k k' then Some v else None
      end
  end.

(** [v[k]] with a string key; [None] is the raised [KeyError]/[TypeError]. *)
Definition py_getitem_str (v : json) (k : string) : option json :=
  match v with
  | JObj kv => assoc_last k kv
  | _ => None
  end.

(** [v[0]]; [None] is the raised [IndexError]/[KeyError]/[TypeError]. *)
Definition py_getitem_0 (v : json) : option json :=
  match v with
  | JArr (x :: _) => Some x
  | JStr (String c _) => Some (JStr (String c EmptyString))
  | _ => None
  end.

(** What [requests.post] gives back: the status code and the body, [None]
    when the body is not JSON ([response.json()] raises). *)
Record http_response := mkResponse { status_code : Z; response_json : option json }.

(** [f"{self.base_url}/crawl"] *)
Definition crawl_endpoint (base_url : option string) : string :=
  py_format_opt base_url +:+ "/crawl".

(** [Crawl4Ai.submit_and_wait]; [post] is [requests.post], [None] when it
    raises.  A [None] result is a raised exception. *)
Definition submit_and_wait (post : string -> json -> option http_response)
    (base_url : option string) (request_data : json) : option json :=
  match post (crawl_endpoint base_url) request_data with
  | None => None
  | Some response =>
      if Z.eqb (status_code response) 200 then response_json response else None
  end.

Definition scrape_request (u : string) : json :=
  JObj [("urls", JArr [JStr u]); ("priority", JNum 10)].

(** Lines 121-128 of [_scrape_content], with [CRAWL4AI_BASE_URL] as
    [base_url].  [None] is the [except] branch; [Some v] returns the JSON
    value [v] ([JNull] being Python's [None]). *)
Definition scrape_content_http (post : string -> json -> option http_response)
    (CRAWL4AI_BASE_URL : option string) (u : string) : option json :=
  result ← submit_and_wait post CRAWL4AI_BASE_URL (scrape_request u);
  results ← py_getitem_str result "results";
  first ← py_getitem_0 results;
  markdown ← py_getitem_str first "markdown";
  py_getitem_str markdown "raw_markdown".

(* ------------------------------------------------------------------ *)
(** ** Lemmas about [process_post] *)

Ltac run_m :=
  cbv [mbind mret M_bind M_ret bind ret emit get_store put_store raise
       process_post obtain_content scrape_content extract_codes_with_ai
       send_notification send_transport save_processed_posts
       obtained_content passes_filter is_new] in *.

Lemma stale_is_new (s : gmap string record) pid lm :
  match s !! pid with
  | Some r => Z.leb lm (rec_last_modified r)
  | None => false
  end = negb (is_new s pid lm).
Proof.
  unfold is_new. destruct (s !! pid); [|reflexivity].
  destruct (Z.leb_spec lm (rec_last_modified r)), (Z.ltb_spec (rec_last_modified r) lm);
    simpl; lia.
Qed.

Lemma process_post_skip w keywords p s :
  passes_filter keywords p && is_new s (post_id p) (last_modified p) = false ->
  process_post w keywords p s = (Ok tt, s, []).
Proof.
  intros H. unfold process_post.
  unfold passes_filter in H.
  destruct (check_keywords keywords (title p) || check_keywords keywords (content p));
    simpl in *; [|reflexivity].
  cbv [mbind M_bind bind get_store]. rewrite stale_is_new, H. reflexivity.
Qed.

Lemma triple_eta {A B C} (x : A * B * C) : (let '(a, b, c) := x in (a, b, c)) = x.
Proof. by destruct x as [[]]. Qed.

Lemma process_post_enter w keywords p s :
  passes_filter keywords p && is_new s (post_id p) (last_modified p) = true ->
  exists r s' t, process_post w keywords p s = (r, s', EvSelect (post_id p) :: t).
Proof.
  intros H. apply andb_true_iff in H as [Hf Hn].
  unfold process_post. unfold passes_filter in Hf. rewrite Hf. simpl.
  cbv [mbind M_bind bind get_store]. rewrite stale_is_new, Hn. simpl.
  cbv [emit]. simpl. rewrite triple_eta.
  match goal with
  | |- context [match ?x with pair _ _ => _ end] => destruct x as [[r0 s2] t2]
  end.
  eauto.
Qed.

(** Every run of the loop body either leaves the dictionary alone or writes
    the post's record over an entry that was absent or strictly older. *)
Lemma process_post_shape w keywords p s :
  store_of (process_post w keywords p s) = s \/
  (passes_filter keywords p = true /\ is_new s (post_id p) (last_modified p) = true /\
   store_of (process_post w keywords p s) = <[post_id p := commit_record p]> s).
Proof.
  destruct (passes_filter keywords p && is_new s (post_id p) (last_modified p)) eqn:H.
  - apply andb_true_iff in H as [Hf Hn].
    unfold process_post. unfold passes_filter in Hf. rewrite Hf. simpl.
    cbv [mbind M_bind bind get_store]. rewrite stale_is_new, Hn. simpl.
    run_m. repeat (case_match; simplify_eq/=); auto.
  - rewrite process_post_skip by exact H. auto.
Qed.

Lemma obtain_content_store w u s :
  obtain_content w u s =
  let '(r, _, t) := obtain_content w u ∅ in (r, s, t).
Proof. run_m. repeat case_match; simplify_eq/=; reflexivity. Qed.

(** The path of lines 237-256: content obtained, notification sent, record
    committed and saved. *)
Lemma process_post_success w keywords p s c :
  passes_filter keywords p = true ->
  is_new s (post_id p) (last_modified p) = true ->
  fromtimestamp_ok w (last_modified p) = true ->
  obtained_content w (url p) = Some c ->
  exists t,
    process_post w keywords p s = (Ok tt, <[post_id p := commit_record p]> s, t) /\
    notifications t =
      [(notification_title p, notification_body (url p) (or_empty (extract w c)))] /\
    In (EvNotify (notification_title p) (notification_body (url p) (or_empty (extract w c)))) t /\
    last t = Some EvSave.
Proof.
  intros Hf Hn Hts Hc.
  unfold process_post. unfold passes_filter in Hf. rewrite Hf. simpl.
  cbv [mbind M_bind bind get_store]. rewrite stale_is_new, Hn, Hts. simpl.
  rewrite obtain_content_store.
  unfold obtained_content in Hc.
  destruct (obtain_content w (url p) ∅) as [[r s0] t0] eqn:Eo.
  destruct r as [oc|e]; simplify_eq/=.
  run_m. repeat (case_match; simplify_eq/=); eexists; split_and!; eauto;
    simpl; rewrite ?last_app; simpl;
    try solve [auto | repeat (first [left; reflexivity | right])].
Qed.

Lemma prefix_app (n b : string) : String.prefix n (n +:+ b) = true.
Proof.
  induction n as [|a n IH]; [by destruct b|].
  simpl. destruct (ascii_dec a a); congruence.
Qed.

Lemma py_in_unfold (n h : string) :
  py_in n h = String.prefix n h || match h with
                                    | EmptyString => false
                                    | String _ h' => py_in n h'
                                    end.
Proof. by destruct h. Qed.

Lemma py_in_app (n a b : string) : py_in n (a +:+ n +:+ b) = true.
Proof.
  induction a as [|ch a IH].
  - change ("" +:+ n +:+ b) with (n +:+ b). rewrite py_in_unfold, prefix_app. reflexivity.
  - simpl. rewrite IH. apply orb_true_r.
Qed.

Lemma state_le_refl s : state_le s s.
Proof. intros k r H. exists r. split; [exact H | lia]. Qed.

Lemma state_le_trans s1 s2 s3 : state_le s1 s2 -> state_le s2 s3 -> state_le s1 s3.
Proof.
  intros H12 H23 k r H. destruct (H12 k r H) as (r2 & H2 & L2).
  destruct (H23 k r2 H2) as (r3 & H3 & L3). exists r3. split; [exact H3 | lia].
Qed.

Lemma state_le_commit s p :
  is_new s (post_id p) (last_modified p) = true ->
  state_le s (<[post_id p := commit_record p]> s).
Proof.
  intros Hn k r H. unfold is_new in Hn.
  destruct (decide (k = post_id p)) as [->|Hne].
  - rewrite lookup_insert_eq. eexists; split; [reflexivity|].
    rewrite H in Hn. apply Z.ltb_lt in Hn. simpl. lia.
  - rewrite lookup_insert_ne by congruence. exists r. split; [exact H | lia].
Qed.

Lemma process_post_state_le w keywords p s :
  state_le s (store_of (process_post w keywords p s)).
Proof.
  destruct (process_post_shape w keywords p s) as [-> | (_ & Hn & ->)].
  - apply state_le_refl.
  - by apply state_le_commit.
Qed.

Lemma for_each_state_le w keywords (l : list post) s :
  state_le s (store_of (for_each (process_post w keywords) l s)).
Proof.
  revert s. induction l as [|p l IH]; intros s; simpl; [apply state_le_refl|].
  pose proof (process_post_state_le w keywords p s) as Hp.
  cbv [mbind M_bind bind].
  destruct (process_post w keywords p s) as [[r s1] t1]; simpl in Hp.
  destruct r as [[]|e]; simpl; [|exact Hp].
  specialize (IH s1).
  destruct (for_each (process_post w keywords) l s1) as [[r2 s2] t2]; simpl in *.
  eapply state_le_trans; eassumption.
Qed.

Lemma run_cycles_state_le keywords (ws : list world) s :
  state_le s (fst (run_cycles keywords ws s)).
Proof.
  revert s. induction ws as [|w ws IH]; intros s; simpl; [apply state_le_refl|].
  unfold run_cycle, process_posts.
  pose proof (for_each_state_le w keywords (feed w) s) as H1.
  destruct (for_each (process_post w keywords) (feed w) s) as [[r1 s1] t1]; simpl in H1.
  specialize (IH s1). destruct (run_cycles keywords ws s1) as [s2 t2]; simpl in *.
  eapply state_le_trans; eassumption.
Qed.

Lemma for_each_cons {A} (f : A -> M unit) x l s :
  for_each f (x :: l) s =
  match f x s with
  | (Ok _, s1, t1) => let '(r, s2, t2) := for_each f l s1 in (r, s2, app t1 t2)
  | (Raise e, s1, t1) => (Raise e, s1, t1)
  end.
Proof. reflexivity. Qed.

(** A pass over posts that are all already committed (or filtered out) does
    nothing. *)
Lemma for_each_all_stale w keywords (l : list post) s :
  (forall p, In p l -> passes_filter keywords p = true ->
     is_new s (post_id p) (last_modified p) = false) ->
  for_each (process_post w keywords) l s = (Ok tt, s, []).
Proof.
  induction l as [|p l IH]; intros Hl; [reflexivity|].
  rewrite for_each_cons, process_post_skip.
  - rewrite IH by (intros q Hq; apply Hl; right; exact Hq). reflexivity.
  - destruct (passes_filter keywords p) eqn:Hf; [|reflexivity].
    simpl. apply Hl; [left; reflexivity | exact Hf].
Qed.

(** A pass over posts with distinct identifiers, all new and all fetched
    successfully, notifies each matching post once and commits it. *)
Lemma for_each_fresh w keywords (l : list post) s :
  NoDup (map post_id l) ->
  (forall p, In p l -> passes_filter keywords p = true ->
     is_new s (post_id p) (last_modified p) = true /\
     fromtimestamp_ok w (last_modified p) = true /\
     is_Some (obtained_content w (url p))) ->
  exists s' t,
    for_each (process_post w keywords) l s = (Ok tt, s', t) /\
    notifications t = omap (expected_notification w) (List.filter (passes_filter keywords) l) /\
    (forall p, In p l -> passes_filter keywords p = true ->
       s' !! post_id p = Some (commit_record p)) /\
    (forall k, k ∉ map post_id l -> s' !! k = s !! k).
Proof.
  revert s. induction l as [|p l IH]; intros s Hnd Hl.
  { exists s, []. split_and!; try reflexivity. intros p []. }
  simpl in Hnd. apply NoDup_cons in Hnd as [Hpnot Hnd].
  assert (Hne : forall q, In q l -> post_id q <> post_id p).
  { intros q Hq Heq. apply Hpnot. rewrite <- Heq.
    apply list_elem_of_In, in_map, Hq. }
  (* the head of the list *)
  assert (Hhead : exists s1 t1,
            process_post w keywords p s = (Ok tt, s1, t1) /\
            notifications t1 = omap (expected_notification w)
                                 (List.filter (passes_filter keywords) [p]) /\
            (passes_filter keywords p = true -> s1 = <[post_id p := commit_record p]> s) /\
            (passes_filter keywords p = false -> s1 = s)).
  { destruct (passes_filter keywords p) eqn:Hf.
    - destruct (Hl p (or_introl eq_refl) Hf) as (Hn & Hts & [c Hc]).
      destruct (process_post_success w keywords p s c Hf Hn Hts Hc) as (t1 & E & Hnot & _).
      exists (<[post_id p := commit_record p]> s), t1. split_and!; try done.
      rewrite Hnot. simpl. rewrite Hf. simpl.
      unfold expected_notification. rewrite Hc. reflexivity.
    - exists s, []. rewrite process_post_skip by (rewrite Hf; reflexivity).
      split_and!; try done. simpl. rewrite Hf. reflexivity. }
  destruct Hhead as (s1 & t1 & E1 & Hn1 & Hs1t & Hs1f).
  assert (Hlook : forall q, In q l -> s1 !! post_id q = s !! post_id q).
  { intros q Hq. destruct (passes_filter keywords p).
    - rewrite Hs1t by reflexivity. apply lookup_insert_ne. apply not_eq_sym, Hne, Hq.
    - rewrite Hs1f by reflexivity. reflexivity. }
  destruct (IH s1 Hnd) as (s2 & t2 & E2 & Hn2 & Hin2 & Hout2).
  { intros q Hq Hf. unfold is_new. rewrite (Hlook q Hq).
    apply Hl; [right; exact Hq | exact Hf]. }
  exists s2, (app t1 t2). split_and!.
  - rewrite for_each_cons, E1, E2. reflexivity.
  - unfold notifications in *. rewrite omap_app, Hn1, Hn2.
    simpl. destruct (passes_filter keywords p); simpl; [|reflexivity].
    destruct (expected_notification w p); reflexivity.
  - intros q [<-|Hq] Hf.
    + rewrite Hout2 by exact Hpnot. rewrite Hs1t by exact Hf. apply lookup_insert_eq.
    + apply Hin2; assumption.
  - intros k Hk. rewrite Hout2 by (intros Hk'; apply Hk; right; exact Hk').
    destruct (passes_filter keywords p).
    + rewrite Hs1t by reflexivity. apply lookup_insert_ne.
      intros Heq. subst k. apply Hk. simpl. apply list_elem_of_here.
    + rewrite Hs1f by reflexivity. reflexivity.
Qed.

Lemma length_omap_all_some {A B} (f : A -> option B) (l : list A) :
  (forall x, In x l -> is_Some (f x)) -> length (omap f l) = length l.
Proof.
  induction l as [|x l IH]; intros H; [reflexivity|].
  simpl. destruct (H x (or_introl eq_refl)) as [y ->]. simpl.
  f_equal. apply IH. intros z Hz. apply H. right. exact Hz.
Qed.

Lemma append_empty_r (s : string) : s +:+ "" = s.
Proof.
  induction s as [|c s IH]; [reflexivity|].
  change (String c (s +:+ "") = String c s). by rewrite IH.
Qed.

(* ------------------------------------------------------------------ *)
(** ** Concrete inputs *)

(** The spec's end-to-end scenario: post 42, keywords from the default
    [KEYWORDS], extraction returns ["CODE-1"] (here with markdown emphasis). *)
Definition p42 : post := mkPost 42 "送兑换码" "CODE-1 CODE-2" 1000 "https://x/42".

Definition world_e2e : world :=
  mkWorld [p42] (fun _ => Some "CODE-1 CODE-2") (fun _ => ArticleRaises)
    (fun _ => Some "**CODE-1**") None (fun _ => true) (fun _ => true).

(** The push endpoint is down. *)
Definition world_push_down : world :=
  mkWorld [p42] (fun _ => Some "CODE-1 CODE-2") (fun _ => ArticleRaises)
    (fun _ => Some "CODE-1") None (fun _ => false) (fun _ => true).

(** The extraction service fails. *)
Definition world_ai_down : world :=
  mkWorld [p42] (fun _ => Some "CODE-1 CODE-2") (fun _ => ArticleRaises)
    (fun _ => None) (Some "email") (fun _ => true) (fun _ => true).

(** The crawl service returns nothing and the page has no article text. *)
Definition world_no_text : world :=
  mkWorld [p42] (fun _ => None) (fun _ => ArticleText "")
    (fun _ => Some "CODE-1") None (fun _ => true) (fun _ => true).

(** A post that mentions none of the default keywords. *)
Definition p_plain : post := mkPost 7 "hello" "world" 100 "https://x/7".

Definition world_plain : world :=
  mkWorld [p_plain] (fun _ => Some "world") (fun _ => ArticleRaises)
    (fun _ => Some "") None (fun _ => true) (fun _ => true).

(** Two matching posts; the first one's page cannot be downloaded by either
    the crawl service or newspaper. *)
Definition p1 : post := mkPost 1 "送码 A" "A" 1000 "https://x/1".
Definition p2 : post := mkPost 2 "送码 B" "B" 1000 "https://x/2".

Definition world_unreachable_first : world :=
  mkWorld [p1; p2] (fun _ => None)
    (fun u => if String.eqb u "https://x/1" then ArticleRaises else ArticleText "B CODE-2")
    (fun _ => Some "CODE-2") None (fun _ => true) (fun _ => true).

(** The dictionary after post 42 was committed at last-modified 1000. *)
Definition store_42 : gmap string record := <[post_id p42 := commit_record p42]> ∅.

Definition v2ex_api : string := "https://www.v2ex.com/api/topics/latest.json".

(* ------------------------------------------------------------------ *)
(** ** Claims *)

(** C1 (as stated, refuted): with the default keywords and an empty
    dictionary, a post whose title and content mention no keyword is new, yet
    [process_posts] never enters the pipeline for it. *)
Lemma C1_new_but_unmatched_post_skipped :
  is_new ∅ (post_id p_plain) (last_modified p_plain) = true /\
  selected (post_id p_plain)
    (trace_of (process_posts world_plain (init_keywords None) ∅)) = false.
Proof. split; vm_compute; reflexivity. Qed.

(** C1 (amended): the loop body enters the pipeline for a post exactly when
    the post passes the keyword filter and [isNew] holds against the current
    dictionary: the identifier is absent, or its stored last-modified value is
    strictly smaller than the post's.  A matching post whose last-modified
    value is at most the stored one is skipped, with no effect. *)
Theorem process_post_selected_iff w keywords p s :
  selected (post_id p) (trace_of (process_post w keywords p s)) =
  passes_filter keywords p && is_new s (post_id p) (last_modified p).
Proof.
  destruct (passes_filter keywords p && is_new s (post_id p) (last_modified p)) eqn:H.
  - destruct (process_post_enter w keywords p s H) as (r & s' & t & ->).
    simpl. rewrite String.eqb_refl. reflexivity.
  - rewrite process_post_skip by exact H. reflexivity.
Qed.

(** C2 (as stated, refuted): when the matching post of the snapshot was
    already committed with its last-modified value before the first pass,
    the two passes send no notification at all for it. *)
Lemma C2_already_committed_post_not_notified :
  let '(r1, s1, t1) := process_posts world_e2e (init_keywords None) store_42 in
  let '(r2, s2, t2) := process_posts world_e2e (init_keywords None) s1 in
  length (notifications (app t1 t2)) = 0 /\
  length (List.filter (passes_filter (init_keywords None)) (feed world_e2e)) = 1.
Proof. vm_compute. split; reflexivity. Qed.

(** C2 (amended): replaying the same feed snapshot.  When the identifiers of the
    snapshot are distinct, every matching post is new before the first pass,
    and the first pass fetches every matching post successfully, the two
    passes together issue exactly one notification per matching post, in
    feed order; the second pass finds every matching post stored with its own
    last-modified value and does nothing. *)
Theorem replay_snapshot_notifies_once w1 w2 keywords s :
  feed w2 = feed w1 ->
  NoDup (map post_id (feed w1)) ->
  (forall p, In p (feed w1) -> passes_filter keywords p = true ->
     is_new s (post_id p) (last_modified p) = true /\
     fromtimestamp_ok w1 (last_modified p) = true /\
     is_Some (obtained_content w1 (url p))) ->
  let '(r1, s1, t1) := process_posts w1 keywords s in
  let '(r2, s2, t2) := process_posts w2 keywords s1 in
  r1 = Ok tt /\ r2 = Ok tt /\ s2 = s1 /\ t2 = [] /\
  notifications (app t1 t2) =
    omap (expected_notification w1) (List.filter (passes_filter keywords) (feed w1)) /\
  length (notifications (app t1 t2)) =
    length (List.filter (passes_filter keywords) (feed w1)) /\
  (forall p, In p (feed w1) -> passes_filter keywords p = true ->
     exists r, s1 !! post_id p = Some r /\ rec_last_modified r = last_modified p).
Proof.
  intros Hfeed Hnd Hok.
  destruct (for_each_fresh w1 keywords (feed w1) s Hnd Hok)
    as (s1 & t1 & E1 & Hn1 & Hin1 & _).
  unfold process_posts. rewrite E1.
  rewrite Hfeed, for_each_all_stale.
  2:{ intros p Hp Hf. unfold is_new. rewrite (Hin1 p Hp Hf). simpl.
      apply Z.ltb_irrefl. }
  rewrite app_nil_r.
  split_and!; try reflexivity.
  - exact Hn1.
  - rewrite Hn1. apply length_omap_all_some.
    intros p Hp. apply filter_In in Hp as [Hp Hf].
    destruct (Hok p Hp Hf) as (_ & _ & [c Hc]).
    unfold expected_notification. rewrite Hc. eexists; reflexivity.
  - intros p Hp Hf. exists (commit_record p). split; [exact (Hin1 p Hp Hf) | reflexivity].
Qed.

Lemma replay_snapshot_notifies_once_witness :
  let '(r1, s1, t1) := process_posts world_e2e (init_keywords None) ∅ in
  let '(r2, s2, t2) := process_posts world_e2e (init_keywords None) s1 in
  r1 = Ok tt /\ r2 = Ok tt /\ s2 = s1 /\ t2 = [] /\
  notifications (app t1 t2) =
    omap (expected_notification world_e2e)
      (List.filter (passes_filter (init_keywords None)) (feed world_e2e)) /\
  length (notifications (app t1 t2)) =
    length (List.filter (passes_filter (init_keywords None)) (feed world_e2e)) /\
  (forall p, In p (feed world_e2e) -> passes_filter (init_keywords None) p = true ->
     exists r, s1 !! post_id p = Some r /\ rec_last_modified r = last_modified p).
Proof.
  apply (replay_snapshot_notifies_once world_e2e world_e2e (init_keywords None) ∅).
  - reflexivity.
  - vm_compute. constructor; [intros H; inversion H | constructor].
  - intros p [<-|[]] _. vm_compute. split_and!; [reflexivity | reflexivity | eexists; reflexivity].
Defined.

(** C3: the stored last-modified value of an identifier never decreases.
    Each run of the loop body either leaves the dictionary as it is, or
    writes the post's record where the identifier was absent or held a
    strictly smaller value; over any sequence of cycles of [run] (including
    cycles cut short by an exception) no stored value goes down. *)
Theorem stored_last_modified_monotone :
  (forall w keywords p s,
     store_of (process_post w keywords p s) = s \/
     (store_of (process_post w keywords p s) = <[post_id p := commit_record p]> s /\
      forall r, s !! post_id p = Some r ->
        (rec_last_modified r < last_modified p)%Z)) /\
  (forall keywords ws s, state_le s (fst (run_cycles keywords ws s))).
Proof.
  split.
  - intros w keywords p s.
    destruct (process_post_shape w keywords p s) as [H | (_ & Hn & H)]; [left; exact H|].
    right. split; [exact H|]. intros r Hr. unfold is_new in Hn. rewrite Hr in Hn.
    apply Z.ltb_lt. exact Hn.
  - apply run_cycles_state_le.
Qed.

(** C4: when the crawl service gives no content for a selected post, the
    newspaper fallback is tried; when it also gives no text (empty text, or
    the exception of [parse] after a failed download) the dictionary is left
    as it was, nothing is notified, and the post is still new. *)
Theorem content_fallback_then_abandon w keywords p s :
  passes_filter keywords p = true ->
  is_new s (post_id p) (last_modified p) = true ->
  fromtimestamp_ok w (last_modified p) = true ->
  truthy (scrape w (url p)) = false ->
  In (EvArticle (url p)) (trace_of (process_post w keywords p s)) /\
  ((article w (url p) = ArticleRaises \/ article w (url p) = ArticleText "") ->
   store_of (process_post w keywords p s) = s /\
   notifications (trace_of (process_post w keywords p s)) = [] /\
   is_new (store_of (process_post w keywords p s)) (post_id p) (last_modified p) = true).
Proof.
  intros Hf Hn Hts Hsc.
  unfold process_post. unfold passes_filter in Hf. rewrite Hf. simpl.
  cbv [mbind M_bind bind get_store]. rewrite stale_is_new, Hn, Hts. simpl.
  run_m. rewrite Hsc.
  destruct (article w (url p)) as [|text] eqn:Ea.
  - simpl. split; [right; right; left; reflexivity|]. intros _. auto.
  - destruct (String.eqb text "") eqn:Et.
    + simpl. split; [right; right; left; reflexivity|]. intros _. auto.
    + split.
      * repeat (case_match; simplify_eq/=); right; right; left; reflexivity.
      * intros [Hc|Hc]; [discriminate|]. injection Hc as ->. discriminate.
Qed.

Lemma content_fallback_then_abandon_witness :
  In (EvArticle (url p42))
    (trace_of (process_post world_no_text (init_keywords None) p42 ∅)) /\
  ((article world_no_text (url p42) = ArticleRaises \/
    article world_no_text (url p42) = ArticleText "") ->
   store_of (process_post world_no_text (init_keywords None) p42 ∅) = ∅ /\
   notifications (trace_of (process_post world_no_text (init_keywords None) p42 ∅)) = [] /\
   is_new (store_of (process_post world_no_text (init_keywords None) p42 ∅))
     (post_id p42) (last_modified p42) = true).
Proof.
  apply content_fallback_then_abandon; vm_compute; reflexivity.
Defined.

(** C5: a failed push or e-mail call is swallowed.  For a selected post
    whose content was obtained, whatever the transports do, the loop body
    returns normally, writes the post's record and saves the dictionary. *)
Theorem notification_failure_still_commits w keywords p s c :
  passes_filter keywords p = true ->
  is_new s (post_id p) (last_modified p) = true ->
  fromtimestamp_ok w (last_modified p) = true ->
  obtained_content w (url p) = Some c ->
  exists t,
    process_post w keywords p s = (Ok tt, <[post_id p := commit_record p]> s, t) /\
    last t = Some EvSave.
Proof.
  intros Hf Hn Hts Hc.
  destruct (process_post_success w keywords p s c Hf Hn Hts Hc) as (t & E & _ & _ & Hl).
  exists t. split; assumption.
Qed.

Lemma notification_failure_still_commits_witness :
  transport_delivers world_push_down Bark = false /\
  exists t,
    process_post world_push_down (init_keywords None) p42 ∅ =
      (Ok tt, <[post_id p42 := commit_record p42]> ∅, t) /\
    last t = Some EvSave.
Proof.
  split; [reflexivity|].
  apply (notification_failure_still_commits world_push_down (init_keywords None) p42 ∅
           "CODE-1 CODE-2"); vm_compute; reflexivity.
Defined.

(** C7: a failed or empty extraction does not stop the pipeline.  For a
    selected post whose content was obtained, if the extraction gives [None]
    or [""], [_send_notification] is still called with the body
    ["链接: <url>\n\n提取信息:\n"], which contains the URL and an empty
    extraction section, and the record is still written. *)
Theorem empty_extraction_still_notifies w keywords p s c :
  passes_filter keywords p = true ->
  is_new s (post_id p) (last_modified p) = true ->
  fromtimestamp_ok w (last_modified p) = true ->
  obtained_content w (url p) = Some c ->
  (extract w c = None \/ extract w c = Some "") ->
  exists t,
    process_post w keywords p s = (Ok tt, <[post_id p := commit_record p]> s, t) /\
    In (EvNotify (notification_title p) (notification_body (url p) "")) t /\
    notification_body (url p) "" =
      "链接: " +:+ url p +:+ newline +:+ newline +:+ "提取信息:" +:+ newline /\
    py_in (url p) (notification_body (url p) "") = true.
Proof.
  intros Hf Hn Hts Hc Hx.
  destruct (process_post_success w keywords p s c Hf Hn Hts Hc) as (t & E & _ & Hin & _).
  assert (He : or_empty (extract w c) = "") by (destruct Hx as [-> | ->]; reflexivity).
  rewrite He in Hin.
  assert (Hb : notification_body (url p) "" =
               "链接: " +:+ url p +:+ newline +:+ newline +:+ "提取信息:" +:+ newline).
  { unfold notification_body. change (remove_star "") with "".
    rewrite append_empty_r. reflexivity. }
  exists t. split_and!; try assumption.
  rewrite Hb. apply py_in_app.
Qed.

Lemma empty_extraction_still_notifies_witness :
  exists t,
    process_post world_ai_down (init_keywords None) p42 ∅ =
      (Ok tt, <[post_id p42 := commit_record p42]> ∅, t) /\
    In (EvNotify (notification_title p42) (notification_body (url p42) "")) t /\
    notification_body (url p42) "" =
      "链接: " +:+ url p42 +:+ newline +:+ newline +:+ "提取信息:" +:+ newline /\
    py_in (url p42) (notification_body (url p42) "") = true.
Proof.
  apply (empty_extraction_still_notifies world_ai_down (init_keywords None) p42 ∅
           "CODE-1 CODE-2"); try (vm_compute; reflexivity).
  left. reflexivity.
Defined.

(** C6 (code bug): the [continue] of line 234 covers only an empty
    [article.text]; when newspaper's download fails, [article.parse()] raises,
    the exception leaves [process_posts] and is caught by [run], and the
    posts after it in the same feed are not looked at in this cycle.  Here
    post 2 matches, is new and has content, but is never selected. *)
Lemma article_exception_aborts_cycle :
  let '(r, s', t) := process_posts world_unreachable_first (init_keywords None) ∅ in
  r = Raise ArticleException /\
  selected (post_id p2) t = false /\
  s' !! post_id p2 = None /\
  passes_filter (init_keywords None) p2 = true /\
  is_new ∅ (post_id p2) (last_modified p2) = true /\
  obtained_content world_unreachable_first (url p2) = Some "B CODE-2".
Proof. vm_compute. split_and!; reflexivity. Qed.

(** C8: with no keywords the filter matches nothing. *)
Theorem check_keywords_empty_list (text : string) : check_keywords [] text = false.
Proof. reflexivity. Qed.

(** C9 (code bug): the request [_get_latest_posts] issues goes to
    [os.getenv("V2EX_API_URL")] itself; the [?t=<epoch_ms>] URL built on
    line 103 is never used.  With the public V2EX endpoint the URL sent has
    no [?t=] parameter. *)
Theorem latest_posts_request_without_cache_buster :
  (forall api_url now_ms,
     option_map get_url (get_latest_posts_request (Some api_url) now_ms) = Some api_url) /\
  option_map get_url (get_latest_posts_request (Some v2ex_api) 1760000000000) =
    Some v2ex_api /\
  py_in "?t=" v2ex_api = false.
Proof.
  split_and!.
  - intros api_url now_ms. reflexivity.
  - reflexivity.
  - vm_compute. reflexivity.
Qed.

(** C10: [KEYWORDS=""] gives the keyword list [[""]], and [""] occurs in
    every string, so every post passes the filter. *)
Theorem empty_keywords_config_matches_all :
  init_keywords (Some "") = [""] /\
  (forall text, check_keywords (init_keywords (Some "")) text = true) /\
  (forall p, passes_filter (init_keywords (Some "")) p = true).
Proof.
  assert (Hin : forall text, check_keywords (init_keywords (Some "")) text = true).
  { intros text. simpl. rewrite py_in_unfold. by destruct text. }
  split_and!; [reflexivity | exact Hin |].
  intros p. unfold passes_filter. rewrite Hin. reflexivity.
Qed.

(* ------------------------------------------------------------------ *)
(** ** Further properties of the code *)

Lemma append_cons (c : ascii) (s t : string) : String c s +:+ t = String c (s +:+ t).
Proof. reflexivity. Qed.

Lemma append_empty_l (t : string) : "" +:+ t = t.
Proof. reflexivity. Qed.

Lemma append_assoc_str (a b c : string) : (a +:+ b) +:+ c = a +:+ (b +:+ c).
Proof.
  induction a as [|ch a IH]; [reflexivity|].
  rewrite !append_cons, IH. reflexivity.
Qed.

Lemma list_ascii_of_string_append (a b : string) :
  list_ascii_of_string (a +:+ b) = app (list_ascii_of_string a) (list_ascii_of_string b).
Proof.
  induction a as [|ch a IH]; [reflexivity|].
  rewrite append_cons. simpl. by rewrite IH.
Qed.

Lemma prefix_spec (n h : string) : String.prefix n h = true <-> exists b, h = n +:+ b.
Proof.
  split.
  - revert h. induction n as [|a n IH]; intros h H.
    + exists h. reflexivity.
    + destruct h as [|b h]; [discriminate|].
      simpl in H. destruct (ascii_dec a b) as [->|]; [|discriminate].
      destruct (IH h H) as [rest ->]. exists rest. reflexivity.
  - intros [b ->]. apply prefix_app.
Qed.

Lemma py_in_spec (n h : string) : py_in n h = true <-> exists a b, h = a +:+ n +:+ b.
Proof.
  split.
  - induction h as [|c h IH]; intros H; rewrite py_in_unfold in H;
      apply orb_true_iff in H as [H|H].
    + apply prefix_spec in H as [b ->]. exists "", b. reflexivity.
    + discriminate.
    + apply prefix_spec in H as [b Hb]. exists "", b. rewrite Hb. reflexivity.
    + destruct (IH H) as (a & b & ->). exists (String c a), b. reflexivity.
  - intros (a & b & ->). apply py_in_app.
Qed.

(** [_check_keywords] is true exactly when some configured keyword occurs
    as a contiguous, case-sensitive substring of the text. *)
Theorem check_keywords_spec (keywords : list string) (text : string) :
  check_keywords keywords text = true <->
  exists kw, In kw keywords /\ exists a b, text = a +:+ kw +:+ b.
Proof.
  unfold check_keywords. rewrite existsb_exists.
  split; intros (kw & Hin & H); exists kw; split; try exact Hin;
    apply py_in_spec; exact H.
Qed.

Lemma split_comma_acc_cons (s acc : string) :
  exists x xs, split_comma_acc s acc = x :: xs.
Proof.
  revert acc. induction s as [|c s IH]; intros acc; simpl; [eauto|].
  destruct (Ascii.eqb c ","%char); eauto.
Qed.

Lemma split_comma_acc_join (s acc : string) :
  String.concat "," (split_comma_acc s acc) = acc +:+ s.
Proof.
  revert acc. induction s as [|c s IH]; intros acc; simpl.
  - by rewrite append_empty_r.
  - destruct (Ascii.eqb c ","%char) eqn:Ec.
    + apply Ascii.eqb_eq in Ec as ->.
      destruct (split_comma_acc_cons s "") as (x & xs & E).
      rewrite E.
      change (String.concat "," (acc :: x :: xs))
        with (acc +:+ "," +:+ String.concat "," (x :: xs)).
      rewrite <- E, IH, append_empty_l. reflexivity.
    + rewrite IH, append_assoc_str. reflexivity.
Qed.

Lemma split_comma_acc_no_comma (s acc : string) :
  ~ In ","%char (list_ascii_of_string acc) ->
  Forall (fun k => ~ In ","%char (list_ascii_of_string k)) (split_comma_acc s acc).
Proof.
  revert acc. induction s as [|c s IH]; intros acc Hacc; simpl.
  - constructor; [exact Hacc | constructor].
  - destruct (Ascii.eqb c ","%char) eqn:Ec.
    + constructor; [exact Hacc|]. apply IH. intros [].
    + apply IH. rewrite list_ascii_of_string_append. simpl.
      intros [H|[H|[]]] % in_app_iff; [exact (Hacc H)|].
      subst c. discriminate.
Qed.

(** [__init__] splits [KEYWORDS] at every comma: joining the keyword list
    with [","] gives back the configured string (or the default), no keyword
    contains a comma, and the list is never empty.  Spaces are kept, so
    ["a, b"] yields the keyword [" b"]. *)
Theorem init_keywords_split_roundtrip (KEYWORDS : option string) :
  String.concat "," (init_keywords KEYWORDS) = getenv_default KEYWORDS default_keywords /\
  Forall (fun k => ~ In ","%char (list_ascii_of_string k)) (init_keywords KEYWORDS) /\
  init_keywords KEYWORDS <> [].
Proof.
  unfold init_keywords, split_comma. split_and!.
  - rewrite split_comma_acc_join. reflexivity.
  - apply split_comma_acc_no_comma. intros [].
  - destruct (split_comma_acc_cons (getenv_default KEYWORDS default_keywords) "")
      as (x & xs & ->). discriminate.
Qed.

Lemma remove_star_no_star (s : string) :
  ~ In "*"%char (list_ascii_of_string (remove_star s)).
Proof.
  induction s as [|c s IH]; simpl; [intros []|].
  destruct (Ascii.eqb c "*"%char) eqn:Ec; [exact IH|].
  simpl. intros [->|H]; [discriminate | exact (IH H)].
Qed.

Lemma remove_star_id (s : string) :
  ~ In "*"%char (list_ascii_of_string s) -> remove_star s = s.
Proof.
  induction s as [|c s IH]; simpl; intros H; [reflexivity|].
  destruct (Ascii.eqb c "*"%char) eqn:Ec.
  - apply Ascii.eqb_eq in Ec. subst c. exfalso. apply H. left. reflexivity.
  - rewrite IH by (intros H'; apply H; right; exact H'). reflexivity.
Qed.

(** The notification body is the fixed header, the URL, and the extraction
    result with every ['*'] removed: that last part never contains ['*'], and
    an extraction result without ['*'] is copied unchanged. *)
Theorem notification_body_strips_stars (u info : string) :
  notification_body u info =
    "链接: " +:+ u +:+ newline +:+ newline +:+ "提取信息:" +:+ newline +:+ remove_star info /\
  ~ In "*"%char (list_ascii_of_string (remove_star info)) /\
  (~ In "*"%char (list_ascii_of_string info) -> remove_star info = info).
Proof.
  split_and!; [reflexivity | apply remove_star_no_star | apply remove_star_id].
Qed.

Lemma py_str_int_inj (a b : Z) : py_str_int a = py_str_int b -> a = b.
Proof.
  unfold py_str_int. intros H.
  assert (Hnn : forall z, Z.to_int z <> Decimal.Pos Decimal.Nil /\
                          Z.to_int z <> Decimal.Neg Decimal.Nil).
  { intros [|p|p]; simpl; split; try discriminate;
      intros E; injection E; apply Unsigned.to_uint_nonnil. }
  apply (f_equal NilZero.int_of_string) in H.
  rewrite !NilZero.isi in H by apply Hnn.
  injection H as H. rewrite <- (DecimalZ.of_to a), <- (DecimalZ.of_to b), H.
  reflexivity.
Qed.

(** Two feed posts share a key of [processed_posts] exactly when their
    integer ids are equal: [str(post["id"])] is injective. *)
Theorem post_id_injective (p q : post) : post_id p = post_id q <-> id p = id q.
Proof.
  split; [apply py_str_int_inj | unfold post_id; congruence].
Qed.

Lemma process_post_effects w keywords p s :
  let '(r, s', t) := process_post w keywords p s in
  (notifications t = [] /\ s' = s /\ ~ In EvSave t) \/
  ((exists b, notifications t = [(notification_title p, b)]) /\
   r = Ok tt /\ s' = <[post_id p := commit_record p]> s /\
   passes_filter keywords p = true /\
   is_new s (post_id p) (last_modified p) = true /\
   last t = Some EvSave).
Proof.
  destruct (passes_filter keywords p && is_new s (post_id p) (last_modified p)) eqn:H.
  - pose proof H as H'. apply andb_true_iff in H' as [Hf Hn].
    unfold process_post. pose proof Hf as Hf'. unfold passes_filter in Hf'. rewrite Hf'. simpl.
    cbv [mbind M_bind bind get_store]. rewrite stale_is_new, Hn. simpl.
    run_m. repeat (case_match; simplify_eq/=).
    all: try solve [
        left; split_and!; [reflexivity | reflexivity | simpl; intuition congruence]
      | right; split_and!; [eexists; reflexivity | reflexivity | reflexivity
                             | first [assumption | reflexivity]
                             | first [assumption | reflexivity]
                             | rewrite ?last_app; reflexivity] ].
  - rewrite process_post_skip by exact H. left. split_and!; [reflexivity..| intros []].
Qed.

(** Each run of the loop body either notifies nothing, leaves the dictionary
    as it was and saves nothing, or sends exactly one notification (titled
    with the post's title), writes the post's record over an absent or older
    entry, and ends by saving the dictionary.  A notification is never sent
    without the commit, and a commit never happens without a notification. *)
Theorem process_post_notify_iff_commit w keywords p s :
  let '(r, s', t) := process_post w keywords p s in
  (notifications t = [] /\ s' = s /\ ~ In EvSave t) \/
  ((exists b, notifications t = [(notification_title p, b)]) /\
   r = Ok tt /\ s' = <[post_id p := commit_record p]> s /\
   is_new s (post_id p) (last_modified p) = true /\
   last t = Some EvSave).
Proof.
  pose proof (process_post_effects w keywords p s) as H.
  destruct (process_post w keywords p s) as [[r s'] t].
  destruct H as [H | (Hb & Hr & Hs & _ & Hn & Hl)]; [left; exact H | right; auto].
Qed.

(** An exception out of the loop body (newspaper's [ArticleException] or the
    time-stamp error of the log line) only happens for a keyword-matching new
    post, and it leaves the dictionary unchanged with no notification sent. *)
Theorem process_post_raise_no_effect w keywords p s e :
  fst (fst (process_post w keywords p s)) = Raise e ->
  store_of (process_post w keywords p s) = s /\
  notifications (trace_of (process_post w keywords p s)) = [] /\
  passes_filter keywords p = true /\
  is_new s (post_id p) (last_modified p) = true.
Proof.
  intros He.
  destruct (passes_filter keywords p && is_new s (post_id p) (last_modified p)) eqn:Hsel.
  - apply andb_true_iff in Hsel as [Hf Hn].
    pose proof (process_post_effects w keywords p s) as H.
    destruct (process_post w keywords p s) as [[r s'] t]. simpl in *.
    destruct H as [(Hnot & Hs & _) | (_ & Hr & _)]; [|congruence].
    split_and!; assumption.
  - rewrite process_post_skip in He by exact Hsel. discriminate.
Qed.

Lemma process_post_raise_no_effect_witness :
  fst (fst (process_post world_unreachable_first (init_keywords None) p1 ∅)) =
    Raise ArticleException /\
  (store_of (process_post world_unreachable_first (init_keywords None) p1 ∅) = ∅ /\
   notifications (trace_of (process_post world_unreachable_first (init_keywords None) p1 ∅)) = [] /\
   passes_filter (init_keywords None) p1 = true /\
   is_new ∅ (post_id p1) (last_modified p1) = true).
Proof.
  split; [vm_compute; reflexivity|].
  apply (process_post_raise_no_effect world_unreachable_first (init_keywords None) p1 ∅
           ArticleException).
  vm_compute. reflexivity.
Defined.

Lemma process_post_frame w keywords p s :
  let s1 := store_of (process_post w keywords p s) in
  (forall k, k <> post_id p -> s1 !! k = s !! k) /\
  (forall k r, s1 !! k = Some r ->
     s !! k = Some r \/
     (passes_filter keywords p = true /\ post_id p = k /\ r = commit_record p)).
Proof.
  simpl. destruct (process_post_shape w keywords p s) as [-> | (Hf & _ & ->)].
  - split; [reflexivity | intros k r H; left; exact H].
  - split.
    + intros k Hk. apply lookup_insert_ne. congruence.
    + intros k r H. destruct (decide (post_id p = k)) as [<-|Hne].
      * rewrite lookup_insert_eq in H. injection H as <-. right. auto.
      * rewrite lookup_insert_ne in H by exact Hne. left. exact H.
Qed.

Lemma for_each_frame w keywords (l : list post) s :
  let s' := store_of (for_each (process_post w keywords) l s) in
  (forall k, ~ In k (map post_id l) -> s' !! k = s !! k) /\
  (forall k r, s' !! k = Some r ->
     s !! k = Some r \/
     exists p, In p l /\ passes_filter keywords p = true /\
               post_id p = k /\ r = commit_record p).
Proof.
  revert s. induction l as [|p l IH]; intros s; simpl.
  { split; [reflexivity | intros k r H; left; exact H]. }
  pose proof (process_post_frame w keywords p s) as [F1 F2].
  cbv [mbind M_bind bind].
  destruct (process_post w keywords p s) as [[r1 s1] t1]; simpl in F1, F2.
  destruct r1 as [[]|e]; simpl.
  - destruct (IH s1) as [G1 G2].
    destruct (for_each (process_post w keywords) l s1) as [[r2 s2] t2]; simpl in *.
    split.
    + intros k Hk. rewrite G1 by tauto. apply F1. intros ->. apply Hk. left. reflexivity.
    + intros k r H. destruct (G2 k r H) as [H1 | (q & Hq & Hqf & Hqk & Hqr)].
      * destruct (F2 k r H1) as [H2 | (Hf & Hk & Hr)]; [left; exact H2|].
        right. exists p. auto.
      * right. exists q. auto.
  - split.
    + intros k Hk. apply F1. intros ->. apply Hk. left. reflexivity.
    + intros k r H. destruct (F2 k r H) as [H2 | (Hf & Hk & Hr)]; [left; exact H2|].
      right. exists p. auto.
Qed.

(** One cycle of [process_posts] (even one cut short by an exception) only
    changes keys of posts in the fetched feed, and every entry it changes
    holds the record of a keyword-matching feed post with that key. *)
Theorem process_posts_writes_only_feed_posts w keywords s :
  let s' := store_of (process_posts w keywords s) in
  (forall k, ~ In k (map post_id (feed w)) -> s' !! k = s !! k) /\
  (forall k r, s' !! k = Some r ->
     s !! k = Some r \/
     exists p, In p (feed w) /\ passes_filter keywords p = true /\
               post_id p = k /\ r = commit_record p).
Proof. apply for_each_frame. Qed.

Lemma process_post_notifications w keywords p s :
  notifications (trace_of (process_post w keywords p s)) = [] \/
  (passes_filter keywords p = true /\
   exists b, notifications (trace_of (process_post w keywords p s)) =
             [(notification_title p, b)]).
Proof.
  pose proof (process_post_effects w keywords p s) as H.
  destruct (process_post w keywords p s) as [[r s'] t]. simpl.
  destruct H as [(H & _) | (Hb & _ & _ & Hf & _)]; [left; exact H | right; auto].
Qed.

Lemma for_each_notifications w keywords (l : list post) s :
  let t := trace_of (for_each (process_post w keywords) l s) in
  length (notifications t) <= length (List.filter (passes_filter keywords) l) /\
  Forall (fun n => exists p, In p l /\ passes_filter keywords p = true /\
                             fst n = notification_title p) (notifications t).
Proof.
  revert s. induction l as [|p l IH]; intros s; simpl.
  { split; [lia | constructor]. }
  pose proof (process_post_notifications w keywords p s) as Hp.
  cbv [mbind M_bind bind].
  destruct (process_post w keywords p s) as [[r1 s1] t1]; simpl in Hp.
  assert (Hp' : length (notifications t1) <=
                (if passes_filter keywords p then 1 else 0) /\
                Forall (fun n => exists q, In q (p :: l) /\ passes_filter keywords q = true /\
                                 fst n = notification_title q) (notifications t1)).
  { destruct Hp as [-> | (Hf & b & ->)]; simpl.
    - split; [destruct (passes_filter keywords p); lia | constructor].
    - rewrite Hf. split; [lia|]. constructor; [|constructor].
      exists p. simpl. auto. }
  destruct Hp' as [Hl1 Hf1].
  destruct r1 as [[]|e]; simpl.
  - destruct (IH s1) as [Hl2 Hf2].
    destruct (for_each (process_post w keywords) l s1) as [[r2 s2] t2]; simpl in *.
    unfold notifications in *. rewrite omap_app, length_app.
    split.
    + destruct (passes_filter keywords p); simpl; lia.
    + apply Forall_app. split; [exact Hf1|].
      eapply Forall_impl; [exact Hf2|]. intros n (q & Hq & Hqf & Hqt).
      exists q. simpl. auto.
  - split; [destruct (passes_filter keywords p); simpl; lia | exact Hf1].
Qed.

(** One cycle of [process_posts] sends at most one notification per
    keyword-matching feed entry, and each notification's title is
    ["V2EX新激活码: "] followed by the title of a keyword-matching feed post. *)
Theorem process_posts_notifications_bounded w keywords s :
  let t := trace_of (process_posts w keywords s) in
  length (notifications t) <= length (List.filter (passes_filter keywords) (feed w)) /\
  Forall (fun n => exists p, In p (feed w) /\ passes_filter keywords p = true /\
                             fst n = notification_title p) (notifications t).
Proof. apply for_each_notifications. Qed.

Lemma process_post_notification_type_outcome w ty keywords p s :
  fst (process_post (with_notification_type w ty) keywords p s) =
  fst (process_post w keywords p s).
Proof.
  destruct (passes_filter keywords p && is_new s (post_id p) (last_modified p)) eqn:H.
  - apply andb_true_iff in H as [Hf Hn].
    unfold process_post. unfold passes_filter in Hf. rewrite Hf. simpl.
    cbv [mbind M_bind bind get_store]. rewrite stale_is_new, Hn. simpl.
    run_m. simpl. repeat (case_match; simplify_eq/=); reflexivity.
  - rewrite !process_post_skip by exact H. reflexivity.
Qed.

Lemma process_post_no_transport w keywords p s ty :
  notification_type w = Some ty -> ty <> "bark" -> ty <> "email" ->
  forallb (fun e => negb (is_transport e)) (trace_of (process_post w keywords p s)) = true.
Proof.
  intros Hty Hb He.
  apply String.eqb_neq in Hb, He.
  destruct (passes_filter keywords p && is_new s (post_id p) (last_modified p)) eqn:H.
  - apply andb_true_iff in H as [Hf Hn].
    unfold process_post. unfold passes_filter in Hf. rewrite Hf. simpl.
    cbv [mbind M_bind bind get_store]. rewrite stale_is_new, Hn. simpl.
    run_m. rewrite Hty. simpl. rewrite Hb, He.
    repeat (case_match; simplify_eq/=); reflexivity.
  - rewrite process_post_skip by exact H. reflexivity.
Qed.

Lemma for_each_outcome_ext (f g : post -> M unit) (l : list post) s :
  (forall p s, fst (f p s) = fst (g p s)) ->
  fst (for_each f l s) = fst (for_each g l s).
Proof.
  intros Hfg. revert s. induction l as [|p l IH]; intros s; [reflexivity|].
  rewrite !for_each_cons. specialize (Hfg p s).
  destruct (f p s) as [[r1 s1] t1], (g p s) as [[r1' s1'] t1']. simpl in Hfg.
  injection Hfg as -> ->. destruct r1' as [a|e]; [|reflexivity].
  specialize (IH s1').
  destruct (for_each f l s1') as [[r2 s2] t2], (for_each g l s1') as [[r2' s2'] t2'].
  simpl in *. congruence.
Qed.

Lemma for_each_trace_forall (f : post -> M unit) (P : event -> bool) (l : list post) s :
  (forall p s, forallb P (trace_of (f p s)) = true) ->
  forallb P (trace_of (for_each f l s)) = true.
Proof.
  intros Hf. revert s. induction l as [|p l IH]; intros s; [reflexivity|].
  rewrite for_each_cons. specialize (Hf p s).
  destruct (f p s) as [[r1 s1] t1]. simpl in Hf.
  destruct r1 as [a|e]; [|exact Hf].
  specialize (IH s1). destruct (for_each f l s1) as [[r2 s2] t2]. simpl in *.
  rewrite forallb_app, Hf, IH. reflexivity.
Qed.

(** With [NOTIFICATION_TYPE] set to anything but ["bark"] or ["email"] (for
    example ["Bark"]), a cycle never calls a notification transport, yet its
    outcome and the records it commits are exactly those of the same cycle
    with [NOTIFICATION_TYPE=bark]: the posts are marked processed although
    nobody was notified. *)
Theorem unknown_notification_type_drops_delivery w keywords s ty :
  notification_type w = Some ty -> ty <> "bark" -> ty <> "email" ->
  forallb (fun e => negb (is_transport e)) (trace_of (process_posts w keywords s)) = true /\
  fst (process_posts w keywords s) =
  fst (process_posts (with_notification_type w (Some "bark")) keywords s).
Proof.
  intros Hty Hb He. split.
  - apply for_each_trace_forall. intros p s'. eapply process_post_no_transport; eassumption.
  - unfold process_posts. simpl. symmetry. apply for_each_outcome_ext.
    intros p s'. apply process_post_notification_type_outcome.
Qed.

Lemma unknown_notification_type_drops_delivery_witness :
  forallb (fun e => negb (is_transport e))
    (trace_of (process_posts (with_notification_type world_e2e (Some "Bark"))
                 (init_keywords None) ∅)) = true /\
  fst (process_posts (with_notification_type world_e2e (Some "Bark")) (init_keywords None) ∅) =
  fst (process_posts (with_notification_type (with_notification_type world_e2e (Some "Bark"))
                        (Some "bark")) (init_keywords None) ∅).
Proof.
  apply (unknown_notification_type_drops_delivery
           (with_notification_type world_e2e (Some "Bark")) (init_keywords None) ∅ "Bark");
    [reflexivity | discriminate | discriminate].
Defined.

(** [_scrape_content] returns a value exactly when the crawl service at
    [{CRAWL4AI_BASE_URL}/crawl] answers 200 with a JSON object whose
    ["results"] is a non-empty list whose first element is an object with a
    ["markdown"] object holding ["raw_markdown"]; that value is returned as
    it is.  Any other answer (another status, a body that is not JSON, a
    missing key, an empty ["results"]) gives [None]. *)
Theorem scrape_content_http_spec post base u v :
  scrape_content_http post base u = Some v <->
  exists kv kv1 kv2 first_rest,
    post (crawl_endpoint base) (scrape_request u) = Some (mkResponse 200 (Some (JObj kv))) /\
    assoc_last "results" kv = Some (JArr (JObj kv1 :: first_rest)) /\
    assoc_last "markdown" kv1 = Some (JObj kv2) /\
    assoc_last "raw_markdown" kv2 = Some v.
Proof.
  unfold scrape_content_http, submit_and_wait. split.
  - destruct (post (crawl_endpoint base) (scrape_request u)) as [[code body]|] eqn:Hp;
      simpl; [|discriminate].
    destruct (Z.eqb_spec code 200) as [->|]; [|discriminate].
    destruct body as [res|]; simpl; [|discriminate].
    destruct res as [| | | |l|kv]; simpl; try discriminate.
    destruct (assoc_last "results" kv) as [rs|] eqn:Hr; simpl; [|discriminate].
    destruct rs as [| | |[|c s']| [|x xs]|]; simpl; try discriminate.
    destruct x as [| | | | |kv1]; simpl; try discriminate.
    destruct (assoc_last "markdown" kv1) as [m|] eqn:Hm; simpl; [|discriminate].
    destruct m as [| | | | |kv2]; simpl; try discriminate.
    intros H. exists kv, kv1, kv2, xs. auto.
  - intros (kv & kv1 & kv2 & xs & Hp & Hr & Hm & Hv).
    rewrite Hp. simpl. rewrite Hr. simpl. rewrite Hm. simpl. exact Hv.
Qed.


